(** * Node-group reconciliation and provider factory of karpenter (AWS)

    A shallow embedding of
      - [pkg/cloudprovider/nodegroup/aws/autoscalinggroup.go]
        ([AutoScalingGroup.Reconcile]), and
      - the AWS provider factory ([NewFactory], [Factory.CapacityFor],
        [withRegion], [withUserAgent] and the constants of the package),
    with the properties the specification states about them.

    Conventions of the embedding.
      - A Go pointer [*T] that is only tested for nil and dereferenced is an
        [option T]; [aws.String], [aws.Int64] and [ptr.Int32] are [Some].
      - Go's fixed-width integers are [Z] with the conversions written out.
      - A Go function with effects is a function from a state to an outcome
        and a state; a panic is an outcome of its own.
      - A method's receiver, and the node group and client it holds, are
        not nil: the constructors set them.
      - Calls that leave the process (the cloud API) are recorded in a log,
        the only thing the model adds to the code. *)

From Stdlib Require Import ZArith Lia Ascii String.
From stdpp Require Import base option list strings gmap.

Local Open Scope Z_scope.

(** ** Go integers *)

(** Conversion of an integer to a signed [w]-bit integer: the low [w] bits,
    read in two's complement. *)
Definition wrap (w z : Z) : Z := (z + 2 ^ (w - 1)) `mod` 2 ^ w - 2 ^ (w - 1).

Definition int32 (z : Z) : Z := wrap 32 z.
Definition int64 (z : Z) : Z := wrap 64 z.

Definition is_int32 (z : Z) : Prop := - 2 ^ 31 <= z < 2 ^ 31.

(** [len] of a slice, a Go [int]. *)
Definition len {A : Type} (l : list A) : Z := Z.of_nat (length l).

(** ** Errors ([github.com/pkg/errors]) and formatting *)

Inductive error : Type :=
| awserr (code message : string)
| withMessage (cause : error) (msg : string).

Fixpoint Error (e : error) : string :=
  match e with
  | awserr code message => code +:+ ": " +:+ message
  | withMessage cause msg => msg +:+ ": " +:+ Error cause
  end.

Fixpoint Cause (e : error) : error :=
  match e with
  | awserr _ _ => e
  | withMessage cause _ => Cause cause
  end.

(** [fmt.Sprintf] for the verb [%s] over string arguments. *)
Fixpoint Sprintf (format : string) (args : list string) : string :=
  match format with
  | EmptyString => EmptyString
  | String c rest =>
      match c, rest with
      | "%"%char, String "s"%char rest' =>
          match args with
          | a :: args' => a +:+ Sprintf rest' args'
          | [] => "%!s(MISSING)" +:+ Sprintf rest' []
          end
      | _, _ => String c (Sprintf rest args)
      end
  end.

(** [errors.Wrapf]: nil stays nil, any other error gets the message in front. *)
Definition Wrapf (err : option error) (format : string) (args : list string)
  : option error :=
  match err with
  | None => None
  | Some e => Some (withMessage e (Sprintf format args))
  end.

(** ** Outcomes and the state monad of Go code *)

Inductive panic : Type :=
| runtimeError (msg : string)
| logPanic (msg : string) (err : error).

Inductive result (A : Type) : Type :=
| Returned (a : A)
| Panicked (p : panic).
Arguments Returned {A} a.
Arguments Panicked {A} p.

Definition Go (St A : Type) : Type := St -> result A * St.

Definition ret {St A : Type} (a : A) : Go St A := fun s => (Returned a, s).

Definition bind {St A B : Type} (m : Go St A) (k : A -> Go St B) : Go St B :=
  fun s =>
    match m s with
    | (Returned a, s') => k a s'
    | (Panicked p, s') => (Panicked p, s')
    end.

Definition throw {St A : Type} (p : panic) : Go St A := fun s => (Panicked p, s).

Definition gets {St A : Type} (f : St -> A) : Go St A := fun s => (Returned (f s), s).

Definition modify {St : Type} (f : St -> St) : Go St unit := fun s => (Returned tt, f s).

#[global] Instance Go_ret {St : Type} : MRet (Go St) := @ret St.
#[global] Instance Go_bind {St : Type} : MBind (Go St) :=
  fun A B k m => bind m k.

(** Dereference of a pointer. *)
Definition deref {St A : Type} (p : option A) : Go St A :=
  match p with
  | Some a => ret a
  | None => throw (runtimeError "invalid memory address or nil pointer dereference")
  end.

(** [s[i]] on a slice. *)
Definition index {St A : Type} (l : list A) (i : nat) : Go St A :=
  match l !! i with
  | Some a => ret a
  | None => throw (runtimeError "index out of range")
  end.

(** ** The AWS SDK types the reconciler touches ([service/autoscaling]) *)

Record Instance : Type := { InstanceId : option string }.

Record Group : Type := {
  GroupName : option string;
  GroupDesiredCapacity : option Z;
  Instances : list (option Instance)
}.

Record DescribeAutoScalingGroupsInput : Type := {
  AutoScalingGroupNames : list (option string);
  MaxRecords : option Z
}.

Record DescribeAutoScalingGroupsOutput : Type := {
  AutoScalingGroups : list (option Group)
}.

Record UpdateAutoScalingGroupInput : Type := {
  AutoScalingGroupName : option string;
  DesiredCapacity : option Z
}.

Record UpdateAutoScalingGroupOutput : Type := emptyUpdateOutput {}.

(** [autoscalingiface.AutoScalingAPI], restricted to the two methods used.
    [C] is the state behind the client: the cloud, or a test double. *)
Class AutoScalingAPI (C : Type) : Type := {
  DescribeAutoScalingGroups :
    DescribeAutoScalingGroupsInput -> C ->
    (option DescribeAutoScalingGroupsOutput * option error) * C;
  UpdateAutoScalingGroup :
    UpdateAutoScalingGroupInput -> C ->
    (option UpdateAutoScalingGroupOutput * option error) * C
}.

(** ** [v1alpha1.ScalableNodeGroup] (the fields the reconciler uses) *)

Record ScalableNodeGroupSpec : Type := {
  ID : string;
  SpecReplicas : option Z
}.

Record ScalableNodeGroupStatus : Type := {
  StatusReplicas : option Z
}.

Record ScalableNodeGroup : Type := {
  Spec : ScalableNodeGroupSpec;
  Status : ScalableNodeGroupStatus
}.

(** ** [AutoScalingGroup] and [Reconcile] *)

Inductive ApiCall : Type :=
| DescribeCall (input : DescribeAutoScalingGroupsInput)
| UpdateCall (input : UpdateAutoScalingGroupInput).

(** The receiver: the node group it points to, the client, and the log of
    the calls sent through the client, oldest first. *)
Record AutoScalingGroup (C : Type) : Type := {
  sng : ScalableNodeGroup;
  Client : C;
  calls : list ApiCall
}.
Arguments sng {C} _.
Arguments Client {C} _.
Arguments calls {C} _.

Definition updates (cs : list ApiCall) : list UpdateAutoScalingGroupInput :=
  omap (fun c => match c with UpdateCall i => Some i | DescribeCall _ => None end) cs.

Section Reconcile.
Context {C : Type} `{!AutoScalingAPI C}.

Definition callDescribe (input : DescribeAutoScalingGroupsInput)
  : Go (AutoScalingGroup C)
       (option DescribeAutoScalingGroupsOutput * option error) :=
  fun asg =>
    let '(r, c') := DescribeAutoScalingGroups input (Client asg) in
    (Returned r,
     {| sng := sng asg; Client := c'; calls := calls asg ++ [DescribeCall input] |}).

Definition callUpdate (input : UpdateAutoScalingGroupInput)
  : Go (AutoScalingGroup C)
       (option UpdateAutoScalingGroupOutput * option error) :=
  fun asg =>
    let '(r, c') := UpdateAutoScalingGroup input (Client asg) in
    (Returned r,
     {| sng := sng asg; Client := c'; calls := calls asg ++ [UpdateCall input] |}).

(** [asg.Status.Replicas = r] *)
Definition setStatusReplicas (r : option Z) : Go (AutoScalingGroup C) unit :=
  modify (fun asg =>
    {| sng := {| Spec := Spec (sng asg); Status := {| StatusReplicas := r |} |};
       Client := Client asg;
       calls := calls asg |}).

Definition Reconcile : Go (AutoScalingGroup C) (option error) :=
  id ← gets (fun asg => ID (Spec (sng asg)));
  '(autoscalingGroupOutput, err) ← callDescribe
      {| AutoScalingGroupNames := [Some id]; MaxRecords := Some 1 |};
  match err with
  | Some _ =>
      id ← gets (fun asg => ID (Spec (sng asg)));
      ret (Wrapf err "unable to get instance count from auto scaling group %s" [id])
  | None =>
      out ← deref autoscalingGroupOutput;
      g0 ← index (AutoScalingGroups out) 0;
      g ← deref g0;
      setStatusReplicas (Some (int32 (len (Instances g))));;
      specReplicas ← gets (fun asg => SpecReplicas (Spec (sng asg)));
      match specReplicas with
      | None => ret None
      | Some desired =>
          statusReplicas ← gets (fun asg => StatusReplicas (Status (sng asg)));
          observed ← deref statusReplicas;
          if decide (observed = desired) then ret None
          else
            id ← gets (fun asg => ID (Spec (sng asg)));
            '(_, err) ← callUpdate
                {| AutoScalingGroupName := Some id;
                   DesiredCapacity := Some (int64 desired) |};
            ret err
      end
  end.

End Reconcile.

(** The two requests a pass can send, as [Reconcile] builds them. *)
Definition describeInput (s : ScalableNodeGroup) : DescribeAutoScalingGroupsInput :=
  {| AutoScalingGroupNames := [Some (ID (Spec s))]; MaxRecords := Some 1 |}.

Definition updateInput (s : ScalableNodeGroup) (desired : Z) : UpdateAutoScalingGroupInput :=
  {| AutoScalingGroupName := Some (ID (Spec s)); DesiredCapacity := Some (int64 desired) |}.

(** The status the pass writes once it has seen the first group. *)
Definition observe (s : ScalableNodeGroup) (g : Group) : ScalableNodeGroup :=
  {| Spec := Spec s;
     Status := {| StatusReplicas := Some (int32 (len (Instances g))) |} |}.

(** [n] passes in a row on the same receiver, as a caller that reconciles
    again and again makes them: what each returned, and the receiver after
    the last. A panic ends the run. *)
Fixpoint passes {C : Type} `{!AutoScalingAPI C} (n : nat) (asg : AutoScalingGroup C)
  : list (result (option error)) * AutoScalingGroup C :=
  match n with
  | O => ([], asg)
  | S n' =>
      let '(r, asg1) := Reconcile asg in
      match r with
      | Returned _ => let '(rs, asg') := passes n' asg1 in (r :: rs, asg')
      | Panicked _ => ([r], asg1)
      end
  end.

(** The state in which a pass has nothing to do: every describe call for
    [input] sent in a state of the cloud that satisfies [stable] reports [k]
    instances, and the desired count is unset or [k]. *)
Definition converged {C : Type} (stable : C -> Prop)
  (input : DescribeAutoScalingGroupsInput) (k : Z) (asg : AutoScalingGroup C) : Prop :=
  describeInput (sng asg) = input ∧ stable (Client asg) ∧
  (SpecReplicas (Spec (sng asg)) = None ∨ SpecReplicas (Spec (sng asg)) = Some k).

(** ** A test double for the client

    An in-memory cloud: the groups by name, and the error, if any, that its
    describe calls and its update calls fail with. A describe call answers
    with the groups it finds under the requested names, none for a name that
    does not exist, as the service does. *)
Record fakeCloud : Type := {
  groups : gmap string Group;
  describeFailure : option error;
  updateFailure : option error
}.

Definition fakeDescribe (input : DescribeAutoScalingGroupsInput) (c : fakeCloud)
  : (option DescribeAutoScalingGroupsOutput * option error) * fakeCloud :=
  match describeFailure c with
  | Some e => ((None, Some e), c)
  | None =>
      let found := omap (fun name => name ≫= fun n => groups c !! n)
                        (AutoScalingGroupNames input) in
      ((Some {| AutoScalingGroups := Some <$> found |}, None), c)
  end.

Definition fakeUpdate (input : UpdateAutoScalingGroupInput) (c : fakeCloud)
  : (option UpdateAutoScalingGroupOutput * option error) * fakeCloud :=
  match updateFailure c with
  | Some e => ((None, Some e), c)
  | None =>
      match AutoScalingGroupName input ≫= fun n => (fun g => (n, g)) <$> groups c !! n with
      | Some (n, g) =>
          let g' := {| GroupName := GroupName g;
                       GroupDesiredCapacity := DesiredCapacity input;
                       Instances := Instances g |} in
          ((Some emptyUpdateOutput, None),
           {| groups := <[n := g']> (groups c);
              describeFailure := describeFailure c;
              updateFailure := updateFailure c |})
      | None =>
          ((None, Some (awserr "ValidationError" "AutoScalingGroup name not found")), c)
      end
  end.

#[global] Instance fakeCloud_api : AutoScalingAPI fakeCloud :=
  {| DescribeAutoScalingGroups := fakeDescribe;
     UpdateAutoScalingGroup := fakeUpdate |}.

Definition instances (n : nat) : list (option Instance) :=
  replicate n (Some {| InstanceId := Some "i-0123456789abcdef0" |}).

Definition group (name : string) (n : nat) : Group :=
  {| GroupName := Some name;
     GroupDesiredCapacity := Some (Z.of_nat n);
     Instances := instances n |}.

Definition cloud (name : string) (n : nat) : fakeCloud :=
  {| groups := {[ name := group name n ]};
     describeFailure := None;
     updateFailure := None |}.

Definition receiver (c : fakeCloud) (id : string) (desired observed : option Z)
  : AutoScalingGroup fakeCloud :=
  {| sng := {| Spec := {| ID := id; SpecReplicas := desired |};
               Status := {| StatusReplicas := observed |} |};
     Client := c;
     calls := [] |}.

Definition throttled : error := awserr "Throttling" "Rate exceeded".

(** The same cloud, refusing every update call. *)
Definition throttledCloud (name : string) (n : nat) : fakeCloud :=
  {| groups := {[ name := group name n ]};
     describeFailure := None;
     updateFailure := Some throttled |}.

(** The group a pass counts the instances of: the first one of the output,
    when the output and that group are there. *)
Definition firstGroup (out : option DescribeAutoScalingGroupsOutput) : option Group :=
  match out with
  | Some o =>
      match AutoScalingGroups o !! 0%nat with
      | Some (Some g) => Some g
      | _ => None
      end
  | None => None
  end.

(** The same receiver with another stored status. *)
Definition withStatus {C : Type} (st : ScalableNodeGroupStatus) (asg : AutoScalingGroup C)
  : AutoScalingGroup C :=
  {| sng := {| Spec := Spec (sng asg); Status := st |};
     Client := Client asg;
     calls := calls asg |}.

(** The first test double after an update call that asked for [d] instances:
    the request is noted, the instances are as before. *)
Definition requested (name : string) (n : nat) (d : Z) : fakeCloud :=
  {| groups := {[ name := {| GroupName := Some name;
                             GroupDesiredCapacity := Some d;
                             Instances := instances n |} ]};
     describeFailure := None;
     updateFailure := None |}.

(** A second test double: a cloud in which a group has, at once, as many
    instances as the last update call asked for. *)
Record elasticCloud : Type := { sizes : gmap string nat }.

Definition elasticDescribe (input : DescribeAutoScalingGroupsInput) (c : elasticCloud)
  : (option DescribeAutoScalingGroupsOutput * option error) * elasticCloud :=
  let found := omap (fun name => name ≫= fun n => group n <$> sizes c !! n)
                    (AutoScalingGroupNames input) in
  ((Some {| AutoScalingGroups := Some <$> found |}, None), c).

Definition elasticUpdate (input : UpdateAutoScalingGroupInput) (c : elasticCloud)
  : (option UpdateAutoScalingGroupOutput * option error) * elasticCloud :=
  match AutoScalingGroupName input, DesiredCapacity input with
  | Some n, Some d =>
      match sizes c !! n with
      | Some _ => ((Some emptyUpdateOutput, None), {| sizes := <[n := Z.to_nat d]> (sizes c) |})
      | None => ((None, Some (awserr "ValidationError" "AutoScalingGroup name not found")), c)
      end
  | _, _ => ((None, Some (awserr "ValidationError" "missing parameter")), c)
  end.

#[global] Instance elasticCloud_api : AutoScalingAPI elasticCloud :=
  {| DescribeAutoScalingGroups := elasticDescribe;
     UpdateAutoScalingGroup := elasticUpdate |}.

Definition elasticReceiver (name : string) (n : nat) (desired : option Z)
  : AutoScalingGroup elasticCloud :=
  {| sng := {| Spec := {| ID := name; SpecReplicas := desired |};
               Status := {| StatusReplicas := None |} |};
     Client := {| sizes := {[ name := n ]} |};
     calls := [] |}.

(** ** The provider factory ([Factory], [CapacityFor], [withRegion])

    The sub-providers, the provisioner and the capacity handles are objects
    behind pointers: a pointer is an address or nil, and the handles that
    [CapacityFor] allocates live in a heap. *)

Definition loc : Type := positive.

Record Factory : Type := {
  nodeFactory : option loc;
  launchTemplateProvider : option loc;
  subnetProvider : option loc;
  instanceTypeProvider : option loc;
  instanceProvider : option loc
}.

Record Capacity : Type := {
  provisioner : option loc;
  capacityNodeFactory : option loc;
  capacityInstanceProvider : option loc;
  capacityLaunchTemplateProvider : option loc;
  capacityInstanceTypeProvider : option loc;
  capacitySubnetProvider : option loc
}.

(** What leaves the process: a request to a cloud API or to the instance
    metadata server. *)
Inductive NetworkCall : Type :=
| apiRequest (service operation : string)
| metadataRequest (path : string).

Record Process : Type := {
  heap : gmap loc Capacity;
  network : list NetworkCall
}.

(** [&Capacity{...}]: a new object at an address not in use. *)
Definition new (c : Capacity) : Go Process loc :=
  fun p =>
    let l := fresh (dom (heap p)) in
    (Returned l, {| heap := <[l := c]> (heap p); network := network p |}).

Definition CapacityFor (f : Factory) (provisioner : option loc) : Go Process loc :=
  new {| provisioner := provisioner;
         capacityNodeFactory := nodeFactory f;
         capacityInstanceProvider := instanceProvider f;
         capacityLaunchTemplateProvider := launchTemplateProvider f;
         capacityInstanceTypeProvider := instanceTypeProvider f;
         capacitySubnetProvider := subnetProvider f |}.

(** A handle holds the very pointers of the factory. *)
Definition sharesProviders (f : Factory) (c : Capacity) : Prop :=
  capacityNodeFactory c = nodeFactory f ∧
  capacityInstanceProvider c = instanceProvider f ∧
  capacityLaunchTemplateProvider c = launchTemplateProvider f ∧
  capacityInstanceTypeProvider c = instanceTypeProvider f ∧
  capacitySubnetProvider c = subnetProvider f.

(** The session, as far as [withRegion] touches it. *)
Record Config : Type := {
  Region : option string;
  STSRegionalEndpoint : Z
}.

Record Session : Type := {
  sessionConfig : Config;
  buildHandlers : list string
}.

(** [ec2metadata.New(sess).Region()]: the answer of the instance metadata
    server, [M] being the state behind it. *)
Class EC2Metadata (M : Type) : Type := {
  metadataRegion : Session -> M -> (string * option error) * M
}.

(** Modelled from the spec: [log.PanicIfError] of [pkg/utils/log] is not among
    the sources. The specification has a failed region lookup abort startup,
    so the helper panics, with the formatted message and the error, when the
    error is not nil, and returns otherwise. *)
Definition PanicIfError {St : Type} (err : option error) (formatter : string)
  (arguments : list string) : Go St unit :=
  match err with
  | Some e => throw (logPanic (Sprintf formatter arguments) e)
  | None => ret tt
  end.

(** [withRegion] returns the pointer it was given, after writing the region
    into the object behind it: here it takes the session and returns the
    session as written. *)
Definition withRegion {M : Type} `{!EC2Metadata M} (sess : Session) : Go M Session :=
  '(region, err) ← (fun m => let '(r, m') := metadataRegion sess m in (Returned r, m'));
  PanicIfError err "failed to call the metadata server's region API" [];;
  ret {| sessionConfig := {| Region := Some region;
                             STSRegionalEndpoint := STSRegionalEndpoint (sessionConfig sess) |};
         buildHandlers := buildHandlers sess |}.

(** A metadata server that always gives the same answer. *)
Record fakeMetadata : Type := { answer : string * option error }.

#[global] Instance fakeMetadata_api : EC2Metadata fakeMetadata :=
  {| metadataRegion := fun _ m => (answer m, m) |}.

Definition newSession : Session :=
  {| sessionConfig := {| Region := None; STSRegionalEndpoint := 2 |};
     buildHandlers := [] |}.

Definition metadataDown : error :=
  awserr "EC2MetadataRequestError" "failed to get EC2 instance identity document".

(** ** [NewFactory] and what it builds

    The constants of the package; a [time.Duration] is a number of
    nanoseconds. *)
Definition Second : Z := 1000000000.
Definition Minute : Z := 60 * Second.

Definition CacheTTL : Z := 5 * Minute.
Definition CacheCleanupInterval : Z := 10 * Minute.
Definition ClusterTagKeyFormat : string := "kubernetes.io/cluster/%s".
Definition KarpenterTagKeyFormat : string := "karpenter.sh/cluster/%s".

(** [withUserAgent] pushes one handler to the back of the build handlers and
    returns the pointer it was given. A handler made by
    [request.MakeAddToUserAgentFreeFormHandler] is listed as the string it
    adds to the user agent. [version] is [project.Version]. *)
Definition withUserAgent (version : string) (sess : Session) : Session :=
  let userAgent := Sprintf "karpenter.sh-%s" [version] in
  {| sessionConfig := sessionConfig sess;
     buildHandlers := buildHandlers sess ++ [userAgent] |}.

(** The objects [NewFactory] puts behind pointers. A client made by [ec2.New]
    or [ssm.New] is known by the session it was made from, a cache made by
    [cache.New] by its two durations, a provider by its fields. *)
Inductive object : Type :=
| EC2Client (sess : Session)
| SSMClient (sess : Session)
| CacheObject (defaultExpiration cleanupInterval : Z)
| SecurityGroupProviderObject (ec2api cache : option loc)
| LaunchTemplateProviderObject (ec2api cache securityGroupProvider ssm clientSet : option loc)
| NodeFactoryObject (ec2api : option loc)
| InstanceProviderObject (ec2api : option loc)
| ForeignObject (type : string) (ec2api : option loc).

(** [cloudprovider.Options] *)
Record Options : Type := { ClientSet : option loc }.

Record Startup (M : Type) : Type := {
  objects : gmap loc object;
  metadata : M
}.
Arguments objects {M} _.
Arguments metadata {M} _.

(** What [NewFactory] uses and the sources at hand do not define:
    [project.Version]; the outcome of
    [session.Must(session.NewSession(request.WithRetryer(..., utils.NewRetryer())))],
    a session or the panic of [session.Must]; and the constructors
    [NewSubnetProvider] and [NewInstanceTypeProvider], which take the EC2
    client. *)
Class Wiring (M : Type) : Type := {
  Version : string;
  mustNewSession : result Session;
  NewSubnetProvider : option loc -> Go (Startup M) (option loc);
  NewInstanceTypeProvider : option loc -> Go (Startup M) (option loc)
}.

(** [&T{...}], [ec2.New], [ssm.New], [cache.New]: a new object at an address
    not in use. *)
Definition alloc {M : Type} (o : object) : Go (Startup M) loc :=
  fun s =>
    let l := fresh (dom (objects s)) in
    (Returned l, {| objects := <[l := o]> (objects s); metadata := metadata s |}).

Definition outcome {St A : Type} (r : result A) : Go St A := fun s => (r, s).

Definition onMetadata {M A : Type} (m : Go M A) : Go (Startup M) A :=
  fun s =>
    let '(r, m') := m (metadata s) in
    (r, {| objects := objects s; metadata := m' |}).

Definition NewFactory {M : Type} `{!EC2Metadata M} `{!Wiring M} (options : Options)
  : Go (Startup M) Factory :=
  sess ← outcome mustNewSession;
  sess ← onMetadata (withRegion sess);
  sess ← ret (withUserAgent Version sess);
  ec2api ← alloc (EC2Client sess);
  ltpCache ← alloc (CacheObject CacheTTL CacheCleanupInterval);
  sgpCache ← alloc (CacheObject CacheTTL CacheCleanupInterval);
  securityGroupProvider ← alloc (SecurityGroupProviderObject (Some ec2api) (Some sgpCache));
  ssm ← alloc (SSMClient sess);
  launchTemplateProvider ← alloc
    (LaunchTemplateProviderObject (Some ec2api) (Some ltpCache)
       (Some securityGroupProvider) (Some ssm) (ClientSet options));
  nodeFactory ← alloc (NodeFactoryObject (Some ec2api));
  subnetProvider ← NewSubnetProvider (Some ec2api);
  instanceTypeProvider ← NewInstanceTypeProvider (Some ec2api);
  instanceProvider ← alloc (InstanceProviderObject (Some ec2api));
  ret {| nodeFactory := Some nodeFactory;
         launchTemplateProvider := Some launchTemplateProvider;
         subnetProvider := subnetProvider;
         instanceTypeProvider := instanceTypeProvider;
         instanceProvider := Some instanceProvider |}.

(** A constructor that returns and leaves the objects already there as they
    are. *)
Definition onlyAdds {M : Type} (f : option loc -> Go (Startup M) (option loc)) : Prop :=
  ∀ api s, ∃ l s', f api s = (Returned l, s') ∧ objects s ⊆ objects s'.

(** Stand-ins for the wiring: the constructors make one object each. *)
Definition fakeWiring (sess : result Session) : Wiring fakeMetadata :=
  {| Version := "v0.2.1";
     mustNewSession := sess;
     NewSubnetProvider := fun api => l ← alloc (ForeignObject "SubnetProvider" api); ret (Some l);
     NewInstanceTypeProvider :=
       fun api => l ← alloc (ForeignObject "InstanceTypeProvider" api); ret (Some l) |}.

Definition emptyStartup (answer : string * option error) : Startup fakeMetadata :=
  {| objects := ∅; metadata := {| answer := answer |} |}.

(** * Properties *)

(** ** The test double at work *)

Example run_3_to_5 :
  Reconcile (receiver (cloud "asg-1" 3) "asg-1" (Some 5) None) =
  (Returned None,
   {| sng := {| Spec := {| ID := "asg-1"; SpecReplicas := Some 5 |};
                Status := {| StatusReplicas := Some 3 |} |};
      Client := {| groups := {[ "asg-1" := {| GroupName := Some "asg-1";
                                               GroupDesiredCapacity := Some 5;
                                               Instances := instances 3 |} ]};
                   describeFailure := None; updateFailure := None |};
      calls := [DescribeCall {| AutoScalingGroupNames := [Some "asg-1"];
                                MaxRecords := Some 1 |};
                UpdateCall {| AutoScalingGroupName := Some "asg-1";
                              DesiredCapacity := Some 5 |}] |}).
Proof. vm_compute. reflexivity. Qed.


(** ** Integers and formatting *)

Lemma wrap_small (w z : Z) :
  0 < w -> - 2 ^ (w - 1) <= z < 2 ^ (w - 1) -> wrap w z = z.
Proof.
  intros Hw Hz. unfold wrap.
  assert (Hp : 2 ^ w = 2 * 2 ^ (w - 1)).
  { rewrite <- Z.pow_succ_r by lia. f_equal. lia. }
  rewrite Z.mod_small; lia.
Qed.

Lemma int32_small (z : Z) : is_int32 z -> int32 z = z.
Proof. intros Hz. apply wrap_small; [lia | exact Hz]. Qed.

Lemma int64_of_int32 (z : Z) : is_int32 z -> int64 z = z.
Proof.
  intros [Hlo Hhi]. apply wrap_small; [lia |].
  change (2 ^ 31) with 2147483648 in *.
  change (2 ^ (64 - 1)) with 9223372036854775808. lia.
Qed.

Lemma int32_len_small {A : Type} (l : list A) :
  len l < 2 ^ 31 -> int32 (len l) = len l.
Proof. intros Hl. apply int32_small. unfold is_int32, len in *. lia. Qed.

Lemma append_empty_r (s : string) : s +:+ "" = s.
Proof.
  induction s as [| c s IH]; [reflexivity |].
  change (String c (s +:+ "") = String c s). by rewrite IH.
Qed.

Lemma Sprintf_instance_count (id : string) :
  Sprintf "unable to get instance count from auto scaling group %s" [id] =
  "unable to get instance count from auto scaling group " +:+ id.
Proof. simpl. rewrite append_empty_r. reflexivity. Qed.

Lemma updates_app (xs ys : list ApiCall) : updates (xs ++ ys) = updates xs ++ updates ys.
Proof. unfold updates. apply omap_app. Qed.

(** ** One pass, case by case *)

Section ReconcileCases.
Context {C : Type} `{!AutoScalingAPI C}.
Implicit Types (g : Group) (e : error).

Ltac run_pass H :=
  unfold Reconcile, mbind, Go_bind, bind, gets, callDescribe; simpl;
  unfold describeInput in H; rewrite H; simpl.

(** The describe call fails: the error comes back wrapped, nothing else is
    touched. *)
Lemma pass_describe_failed (asg : AutoScalingGroup C) out e c1 :
  DescribeAutoScalingGroups (describeInput (sng asg)) (Client asg) = ((out, Some e), c1) ->
  Reconcile asg =
  (Returned (Some (withMessage e
     ("unable to get instance count from auto scaling group " +:+ ID (Spec (sng asg))))),
   {| sng := sng asg; Client := c1;
      calls := calls asg ++ [DescribeCall (describeInput (sng asg))] |}).
Proof.
  intros H. run_pass H. unfold ret.
  by rewrite <- Sprintf_instance_count.
Qed.

(** The describe call answers without error and without any group. *)
Lemma pass_no_results (asg : AutoScalingGroup C) c1 :
  DescribeAutoScalingGroups (describeInput (sng asg)) (Client asg) =
    ((Some {| AutoScalingGroups := [] |}, None), c1) ->
  Reconcile asg =
  (Panicked (runtimeError "index out of range"),
   {| sng := sng asg; Client := c1;
      calls := calls asg ++ [DescribeCall (describeInput (sng asg))] |}).
Proof. intros H. run_pass H. reflexivity. Qed.

(** The describe call answers with a group, and nothing is to be done. *)
Lemma pass_noop (asg : AutoScalingGroup C) g rest c1 :
  DescribeAutoScalingGroups (describeInput (sng asg)) (Client asg) =
    ((Some {| AutoScalingGroups := Some g :: rest |}, None), c1) ->
  SpecReplicas (Spec (sng asg)) = None ∨
  SpecReplicas (Spec (sng asg)) = Some (int32 (len (Instances g))) ->
  Reconcile asg =
  (Returned None,
   {| sng := observe (sng asg) g; Client := c1;
      calls := calls asg ++ [DescribeCall (describeInput (sng asg))] |}).
Proof.
  intros H [Hd | Hd]; run_pass H; rewrite Hd; simpl; [reflexivity |].
  unfold mbind, Go_bind, bind, gets. simpl.
  rewrite decide_True by reflexivity. reflexivity.
Qed.

(** The describe call answers with a group, and the size asked for is
    another one: the update call is sent and its error is the result. *)
Lemma pass_update (asg : AutoScalingGroup C) g rest c1 desired out err c2 :
  DescribeAutoScalingGroups (describeInput (sng asg)) (Client asg) =
    ((Some {| AutoScalingGroups := Some g :: rest |}, None), c1) ->
  SpecReplicas (Spec (sng asg)) = Some desired ->
  int32 (len (Instances g)) ≠ desired ->
  UpdateAutoScalingGroup (updateInput (sng asg) desired) c1 = ((out, err), c2) ->
  Reconcile asg =
  (Returned err,
   {| sng := observe (sng asg) g; Client := c2;
      calls := calls asg ++ [DescribeCall (describeInput (sng asg));
                             UpdateCall (updateInput (sng asg) desired)] |}).
Proof.
  intros H Hd Hne Hu. run_pass H. rewrite Hd. simpl.
  unfold mbind, Go_bind, bind, gets, callUpdate. simpl.
  rewrite decide_False by exact Hne. simpl.
  unfold updateInput in Hu. simpl in Hu. rewrite Hu. simpl.
  unfold ret, observe. by rewrite <- app_assoc.
Qed.

(** The describe call answers without error and with a nil output. *)
Lemma pass_nil_output (asg : AutoScalingGroup C) c1 :
  DescribeAutoScalingGroups (describeInput (sng asg)) (Client asg) = ((None, None), c1) ->
  Reconcile asg =
  (Panicked (runtimeError "invalid memory address or nil pointer dereference"),
   {| sng := sng asg; Client := c1;
      calls := calls asg ++ [DescribeCall (describeInput (sng asg))] |}).
Proof. intros H. run_pass H. reflexivity. Qed.

(** The describe call answers with a nil pointer as its first group. *)
Lemma pass_nil_group (asg : AutoScalingGroup C) rest c1 :
  DescribeAutoScalingGroups (describeInput (sng asg)) (Client asg) =
    ((Some {| AutoScalingGroups := None :: rest |}, None), c1) ->
  Reconcile asg =
  (Panicked (runtimeError "invalid memory address or nil pointer dereference"),
   {| sng := sng asg; Client := c1;
      calls := calls asg ++ [DescribeCall (describeInput (sng asg))] |}).
Proof. intros H. run_pass H. reflexivity. Qed.

End ReconcileCases.

(** ** Passes in a row while the cloud keeps its answer *)

Section Converged.
Context {C : Type} `{!AutoScalingAPI C}.
Variable stable : C -> Prop.
Variable input : DescribeAutoScalingGroupsInput.
Variable k : Z.
Hypothesis describe_stable : ∀ c, stable c ->
  ∃ g rest c',
    DescribeAutoScalingGroups input c =
      ((Some {| AutoScalingGroups := Some g :: rest |}, None), c') ∧
    int32 (len (Instances g)) = k ∧ stable c'.

Lemma converged_pass (asg : AutoScalingGroup C) :
  converged stable input k asg ->
  ∃ asg',
    Reconcile asg = (Returned None, asg') ∧ converged stable input k asg' ∧
    updates (calls asg') = updates (calls asg) ∧
    StatusReplicas (Status (sng asg')) = Some k.
Proof.
  intros (Hin & Hst & Hspec). unfold converged.
  destruct (describe_stable _ Hst) as (g & rest & c' & Hd & Hk & Hst').
  rewrite <- Hin in Hd.
  eexists. split.
  - apply (pass_noop asg g rest c' Hd). by rewrite Hk.
  - simpl. repeat split; try done.
    + rewrite updates_app. simpl. by rewrite app_nil_r.
    + by rewrite Hk.
Qed.

Lemma converged_passes (n : nat) : ∀ asg : AutoScalingGroup C,
  converged stable input k asg ->
  StatusReplicas (Status (sng asg)) = Some k ->
  ∃ asg',
    passes n asg = (replicate n (Returned None), asg') ∧
    updates (calls asg') = updates (calls asg) ∧
    StatusReplicas (Status (sng asg')) = Some k.
Proof.
  induction n as [| n IH]; intros asg Hc Hk.
  - exists asg. by repeat split.
  - destruct (converged_pass asg Hc) as (asg1 & Hr & Hc1 & Hu & Hs).
    destruct (IH asg1 Hc1 Hs) as (asg' & Hr' & Hu' & Hs').
    exists asg'. simpl. rewrite Hr, Hr'. repeat split; [congruence | done].
Qed.

End Converged.

(** ** What the specification says of a pass *)

(** C1. When the describe call reports a group whose instance count is not
    the desired count, the pass sends exactly one update call, for this node
    group and with the desired count as the requested size, and the status
    holds the count that was described, not the desired one. The count is
    the [int32] the code stores; it is the number of instances itself
    whenever that number fits. *)
Theorem Reconcile_scales_once {C : Type} `{!AutoScalingAPI C}
  (asg : AutoScalingGroup C) g rest c1 desired :
  DescribeAutoScalingGroups (describeInput (sng asg)) (Client asg) =
    ((Some {| AutoScalingGroups := Some g :: rest |}, None), c1) ->
  SpecReplicas (Spec (sng asg)) = Some desired ->
  is_int32 desired ->
  int32 (len (Instances g)) ≠ desired ->
  ∃ err asg' input,
    Reconcile asg = (Returned err, asg') ∧
    calls asg' = calls asg ++ [DescribeCall (describeInput (sng asg)); UpdateCall input] ∧
    AutoScalingGroupName input = Some (ID (Spec (sng asg))) ∧
    DesiredCapacity input = Some desired ∧
    StatusReplicas (Status (sng asg')) = Some (int32 (len (Instances g))) ∧
    StatusReplicas (Status (sng asg')) ≠ Some desired ∧
    (len (Instances g) < 2 ^ 31 ->
     StatusReplicas (Status (sng asg')) = Some (len (Instances g))).
Proof.
  intros Hd Hs Hr Hne.
  destruct (UpdateAutoScalingGroup (updateInput (sng asg) desired) c1)
    as [[out err] c2] eqn:Hu.
  exists err. eexists. exists (updateInput (sng asg) desired).
  split; [exact (pass_update asg g rest c1 desired out err c2 Hd Hs Hne Hu) |].
  simpl. repeat split.
  - by rewrite int64_of_int32.
  - congruence.
  - intros Hl. by rewrite int32_len_small.
Qed.

Lemma Reconcile_scales_once_witness :
  ∃ err asg' input,
    Reconcile (receiver (cloud "asg-1" 3) "asg-1" (Some 5) None) = (Returned err, asg') ∧
    calls asg' = [] ++ [DescribeCall {| AutoScalingGroupNames := [Some "asg-1"];
                                        MaxRecords := Some 1 |};
                        UpdateCall input] ∧
    AutoScalingGroupName input = Some "asg-1" ∧
    DesiredCapacity input = Some 5 ∧
    StatusReplicas (Status (sng asg')) = Some (int32 (len (instances 3))) ∧
    StatusReplicas (Status (sng asg')) ≠ Some 5 ∧
    (len (instances 3) < 2 ^ 31 ->
     StatusReplicas (Status (sng asg')) = Some (len (instances 3))).
Proof.
  apply (Reconcile_scales_once (receiver (cloud "asg-1" 3) "asg-1" (Some 5) None)
           (group "asg-1" 3) [] (cloud "asg-1" 3) 5).
  - vm_compute. reflexivity.
  - reflexivity.
  - unfold is_int32. lia.
  - vm_compute. discriminate.
Defined.

(** C3. When the describe call returns an error, the pass returns that error
    under a message that ends in the node group's identifier, sends no update
    call, and leaves the node group, its [Status.Replicas] included, as it
    was. *)
Theorem Reconcile_describe_error_keeps_status {C : Type} `{!AutoScalingAPI C}
  (asg : AutoScalingGroup C) out (e : error) c1 :
  DescribeAutoScalingGroups (describeInput (sng asg)) (Client asg) = ((out, Some e), c1) ->
  ∃ err asg',
    Reconcile asg = (Returned (Some err), asg') ∧
    err = withMessage e ("unable to get instance count from auto scaling group "
                         +:+ ID (Spec (sng asg))) ∧
    Error err = ("unable to get instance count from auto scaling group "
                 +:+ ID (Spec (sng asg))) +:+ ": " +:+ Error e ∧
    Cause err = Cause e ∧
    sng asg' = sng asg ∧
    StatusReplicas (Status (sng asg')) = StatusReplicas (Status (sng asg)) ∧
    updates (calls asg') = updates (calls asg).
Proof.
  intros Hd. do 2 eexists.
  split; [exact (pass_describe_failed asg out e c1 Hd) |].
  simpl. repeat split.
  rewrite updates_app. simpl. by rewrite app_nil_r.
Qed.

Lemma Reconcile_describe_error_keeps_status_witness :
  ∃ err asg',
    Reconcile (receiver {| groups := ∅; describeFailure := Some throttled;
                           updateFailure := None |} "asg-1" (Some 5) (Some 4))
      = (Returned (Some err), asg') ∧
    err = withMessage throttled "unable to get instance count from auto scaling group asg-1" ∧
    Error err = "unable to get instance count from auto scaling group asg-1: Throttling: Rate exceeded" ∧
    Cause err = throttled ∧
    sng asg' = {| Spec := {| ID := "asg-1"; SpecReplicas := Some 5 |};
                  Status := {| StatusReplicas := Some 4 |} |} ∧
    StatusReplicas (Status (sng asg')) = Some 4 ∧
    updates (calls asg') = [].
Proof.
  apply (Reconcile_describe_error_keeps_status
           (receiver {| groups := ∅; describeFailure := Some throttled;
                        updateFailure := None |} "asg-1" (Some 5) (Some 4))
           None throttled
           {| groups := ∅; describeFailure := Some throttled; updateFailure := None |}).
  reflexivity.
Defined.

(** C4. When the describe call reports a group, the pass sets
    [Status.Replicas] to the instance count of that group whatever the desired
    count is: unset, equal or different. The specification of the node group
    is not written. *)
Theorem Reconcile_sets_observed {C : Type} `{!AutoScalingAPI C}
  (asg : AutoScalingGroup C) g rest c1 :
  DescribeAutoScalingGroups (describeInput (sng asg)) (Client asg) =
    ((Some {| AutoScalingGroups := Some g :: rest |}, None), c1) ->
  ∃ err asg',
    Reconcile asg = (Returned err, asg') ∧
    StatusReplicas (Status (sng asg')) = Some (int32 (len (Instances g))) ∧
    Spec (sng asg') = Spec (sng asg) ∧
    (len (Instances g) < 2 ^ 31 ->
     StatusReplicas (Status (sng asg')) = Some (len (Instances g))).
Proof.
  intros Hd.
  assert (Hexact : len (Instances g) < 2 ^ 31 ->
             Some (int32 (len (Instances g))) = Some (len (Instances g))).
  { intros Hl. by rewrite int32_len_small. }
  destruct (SpecReplicas (Spec (sng asg))) as [desired |] eqn:Hs.
  - destruct (decide (int32 (len (Instances g)) = desired)) as [Heq | Hne].
    + do 2 eexists. split.
      * apply (pass_noop asg g rest c1 Hd). right. by rewrite Heq.
      * simpl. by repeat split.
    + destruct (UpdateAutoScalingGroup (updateInput (sng asg) desired) c1)
        as [[out err] c2] eqn:Hu.
      do 2 eexists. split.
      * exact (pass_update asg g rest c1 desired out err c2 Hd Hs Hne Hu).
      * simpl. by repeat split.
  - do 2 eexists. split.
    + apply (pass_noop asg g rest c1 Hd). by left.
    + simpl. by repeat split.
Qed.

Lemma Reconcile_sets_observed_witness :
  ∃ err asg',
    Reconcile (receiver (cloud "asg-1" 7) "asg-1" None (Some 2)) = (Returned err, asg') ∧
    StatusReplicas (Status (sng asg')) = Some (int32 (len (instances 7))) ∧
    Spec (sng asg') = {| ID := "asg-1"; SpecReplicas := None |} ∧
    (len (instances 7) < 2 ^ 31 ->
     StatusReplicas (Status (sng asg')) = Some (len (instances 7))).
Proof.
  apply (Reconcile_sets_observed (receiver (cloud "asg-1" 7) "asg-1" None (Some 2))
           (group "asg-1" 7) [] (cloud "asg-1" 7)).
  vm_compute. reflexivity.
Defined.

(** C5. When the desired count is unset, or is the count the describe call
    reports, the pass returns success, sends no update call and sets the
    status to that count. As long as the cloud then keeps reporting that
    count, any number of further passes all return success, send no update
    call and leave the status at that count. *)
Theorem Reconcile_converged_idempotent {C : Type} `{!AutoScalingAPI C}
  (asg : AutoScalingGroup C) g rest c1 (k : Z) :
  DescribeAutoScalingGroups (describeInput (sng asg)) (Client asg) =
    ((Some {| AutoScalingGroups := Some g :: rest |}, None), c1) ->
  int32 (len (Instances g)) = k ->
  SpecReplicas (Spec (sng asg)) = None ∨ SpecReplicas (Spec (sng asg)) = Some k ->
  ∃ asg1,
    Reconcile asg = (Returned None, asg1) ∧
    updates (calls asg1) = updates (calls asg) ∧
    StatusReplicas (Status (sng asg1)) = Some k ∧
    ∀ stable : C -> Prop,
      stable c1 ->
      (∀ c, stable c ->
         ∃ g' rest' c',
           DescribeAutoScalingGroups (describeInput (sng asg)) c =
             ((Some {| AutoScalingGroups := Some g' :: rest' |}, None), c') ∧
           int32 (len (Instances g')) = k ∧ stable c') ->
      ∀ n, ∃ asg',
        passes n asg1 = (replicate n (Returned None), asg') ∧
        updates (calls asg') = updates (calls asg) ∧
        StatusReplicas (Status (sng asg')) = Some k.
Proof.
  intros Hd Hk Hspec. eexists.
  split; [apply (pass_noop asg g rest c1 Hd); by rewrite Hk |].
  assert (Hu : updates (calls asg ++ [DescribeCall (describeInput (sng asg))])
               = updates (calls asg)).
  { rewrite updates_app. simpl. by rewrite app_nil_r. }
  simpl. split; [exact Hu |]. split; [by rewrite Hk |].
  intros stable Hst Hstable n.
  rewrite <- Hu.
  apply (converged_passes stable (describeInput (sng asg)) k Hstable n).
  - by repeat split.
  - simpl. by rewrite Hk.
Qed.

Lemma Reconcile_converged_idempotent_witness :
  ∃ asg1,
    Reconcile (receiver (cloud "asg-1" 7) "asg-1" None (Some 2)) = (Returned None, asg1) ∧
    updates (calls asg1) = [] ∧
    StatusReplicas (Status (sng asg1)) = Some 7 ∧
    ∃ asg',
      passes 3 asg1 = ([Returned None; Returned None; Returned None], asg') ∧
      updates (calls asg') = [] ∧
      StatusReplicas (Status (sng asg')) = Some 7.
Proof.
  destruct (Reconcile_converged_idempotent
              (receiver (cloud "asg-1" 7) "asg-1" None (Some 2))
              (group "asg-1" 7) [] (cloud "asg-1" 7) 7)
    as (asg1 & Hr & Hu & Hs & Hn).
  - vm_compute. reflexivity.
  - vm_compute. reflexivity.
  - left. reflexivity.
  - exists asg1. split; [exact Hr |]. split; [exact Hu |]. split; [exact Hs |].
    apply (Hn (fun c => c = cloud "asg-1" 7) eq_refl).
    intros c ->. exists (group "asg-1" 7), [], (cloud "asg-1" 7).
    split; [vm_compute; reflexivity |]. split; [vm_compute |]; reflexivity.
Defined.

(** C6. Whatever the node group, the client and the answers it gives, one
    pass adds at most one update call to the calls sent. *)
Theorem Reconcile_at_most_one_update {C : Type} `{!AutoScalingAPI C}
  (asg : AutoScalingGroup C) :
  ∃ new,
    calls (snd (Reconcile asg)) = calls asg ++ new ∧
    (length (updates new) ≤ 1)%nat.
Proof.
  destruct (DescribeAutoScalingGroups (describeInput (sng asg)) (Client asg))
    as [[out err] c1] eqn:Hd.
  destruct err as [e |].
  { rewrite (pass_describe_failed asg out e c1 Hd). simpl.
    eexists. split; [reflexivity | simpl; lia]. }
  destruct out as [[[| [g |] rest]] |].
  - rewrite (pass_no_results asg c1 Hd). simpl.
    eexists. split; [reflexivity | simpl; lia].
  - destruct (SpecReplicas (Spec (sng asg))) as [desired |] eqn:Hs.
    + destruct (decide (int32 (len (Instances g)) = desired)) as [Heq | Hne].
      * rewrite (pass_noop asg g rest c1 Hd) by (right; by rewrite Heq). simpl.
        eexists. split; [reflexivity | simpl; lia].
      * destruct (UpdateAutoScalingGroup (updateInput (sng asg) desired) c1)
          as [[uout uerr] c2] eqn:Hu.
        rewrite (pass_update asg g rest c1 desired uout uerr c2 Hd Hs Hne Hu). simpl.
        eexists. split; [reflexivity | simpl; lia].
    + rewrite (pass_noop asg g rest c1 Hd) by (by left). simpl.
      eexists. split; [reflexivity | simpl; lia].
  - rewrite (pass_nil_group asg rest c1 Hd). simpl.
    eexists. split; [reflexivity | simpl; lia].
  - rewrite (pass_nil_output asg c1 Hd). simpl.
    eexists. split; [reflexivity | simpl; lia].
Qed.

(** C10. When the describe call reports a group and the update call that
    follows fails, the pass returns the error and the status holds the count
    just described: the write of the status is not undone. *)
Theorem Reconcile_update_error_keeps_observed {C : Type} `{!AutoScalingAPI C}
  (asg : AutoScalingGroup C) g rest c1 desired out (e : error) c2 :
  DescribeAutoScalingGroups (describeInput (sng asg)) (Client asg) =
    ((Some {| AutoScalingGroups := Some g :: rest |}, None), c1) ->
  SpecReplicas (Spec (sng asg)) = Some desired ->
  int32 (len (Instances g)) ≠ desired ->
  UpdateAutoScalingGroup (updateInput (sng asg) desired) c1 = ((out, Some e), c2) ->
  ∃ asg',
    Reconcile asg = (Returned (Some e), asg') ∧
    StatusReplicas (Status (sng asg')) = Some (int32 (len (Instances g))) ∧
    (len (Instances g) < 2 ^ 31 ->
     StatusReplicas (Status (sng asg')) = Some (len (Instances g))).
Proof.
  intros Hd Hs Hne Hu. eexists.
  split; [exact (pass_update asg g rest c1 desired out (Some e) c2 Hd Hs Hne Hu) |].
  simpl. split; [reflexivity |]. intros Hl. by rewrite int32_len_small.
Qed.

Lemma Reconcile_update_error_keeps_observed_witness :
  ∃ asg',
    Reconcile (receiver (throttledCloud "asg-1" 3) "asg-1" (Some 5) (Some 9))
      = (Returned (Some throttled), asg') ∧
    StatusReplicas (Status (sng asg')) = Some (int32 (len (instances 3))) ∧
    (len (instances 3) < 2 ^ 31 ->
     StatusReplicas (Status (sng asg')) = Some (len (instances 3))).
Proof.
  apply (Reconcile_update_error_keeps_observed
           (receiver (throttledCloud "asg-1" 3) "asg-1" (Some 5) (Some 9))
           (group "asg-1" 3) [] (throttledCloud "asg-1" 3) 5 None throttled
           (throttledCloud "asg-1" 3)).
  - vm_compute. reflexivity.
  - reflexivity.
  - vm_compute. discriminate.
  - vm_compute. reflexivity.
Defined.

(** C2. A describe call that finds no group under the name answers without
    error and with no result. The pass then stops in a run-time panic at the
    first element of the empty result: no error is returned to the caller.
    (The status is not written either.) *)
Theorem Reconcile_missing_group_panics :
  Reconcile (receiver (cloud "asg-1" 3) "asg-2" (Some 5) (Some 3)) =
  (Panicked (runtimeError "index out of range"),
   {| sng := {| Spec := {| ID := "asg-2"; SpecReplicas := Some 5 |};
                Status := {| StatusReplicas := Some 3 |} |};
      Client := cloud "asg-1" 3;
      calls := [DescribeCall {| AutoScalingGroupNames := [Some "asg-2"];
                                MaxRecords := Some 1 |}] |}).
Proof.
  apply (pass_no_results (receiver (cloud "asg-1" 3) "asg-2" (Some 5) (Some 3))).
  vm_compute. reflexivity.
Qed.

(** C7. An update call that fails: the pass returns the error of the call as
    it is, under no message and without the identifier of the node group,
    after one update call. *)
Theorem Reconcile_update_error_not_wrapped :
  ∃ asg',
    Reconcile (receiver (throttledCloud "asg-1" 3) "asg-1" (Some 5) None)
      = (Returned (Some throttled), asg') ∧
    Error throttled = "Throttling: Rate exceeded" ∧
    (∀ msg, Some throttled ≠ Wrapf (Some throttled) msg ["asg-1"]) ∧
    updates (calls asg') = [{| AutoScalingGroupName := Some "asg-1";
                               DesiredCapacity := Some 5 |}].
Proof.
  eexists. split.
  - apply (pass_update (receiver (throttledCloud "asg-1" 3) "asg-1" (Some 5) None)
             (group "asg-1" 3) [] (throttledCloud "asg-1" 3) 5 None (Some throttled)
             (throttledCloud "asg-1" 3)).
    + vm_compute. reflexivity.
    + reflexivity.
    + vm_compute. discriminate.
    + vm_compute. reflexivity.
  - split; [reflexivity |]. split; [intros msg; discriminate |].
    vm_compute. reflexivity.
Qed.

(** ** The factory *)

(** C8. [CapacityFor] sends nothing over the network and returns a new
    handle that holds the provisioner it was given and the factory's own
    pointers to the five sub-providers; two handles of one factory are two
    objects with the same sub-providers. *)
Theorem CapacityFor_shares_providers (f : Factory) (prov1 prov2 : option loc)
  (p : Process) :
  ∃ l1 p1 l2 p2 c1 c2,
    CapacityFor f prov1 p = (Returned l1, p1) ∧
    CapacityFor f prov2 p1 = (Returned l2, p2) ∧
    network p1 = network p ∧ network p2 = network p ∧
    heap p !! l1 = None ∧ l1 ≠ l2 ∧
    heap p1 !! l1 = Some c1 ∧ heap p2 !! l1 = Some c1 ∧ heap p2 !! l2 = Some c2 ∧
    provisioner c1 = prov1 ∧ provisioner c2 = prov2 ∧
    sharesProviders f c1 ∧ sharesProviders f c2.
Proof.
  unfold CapacityFor, new.
  set (l1 := fresh (dom (heap p))).
  set (c1 := {| provisioner := prov1 |}).
  set (c2 := {| provisioner := prov2 |}).
  set (l2 := fresh (dom (<[l1 := c1]> (heap p)))).
  assert (Hl1 : heap p !! l1 = None).
  { apply not_elem_of_dom. apply is_fresh. }
  assert (Hne : l1 ≠ l2).
  { intros Heq. apply (is_fresh (dom (<[l1 := c1]> (heap p)))).
    fold l2. rewrite <- Heq. rewrite dom_insert_L. set_solver. }
  exists l1, {| heap := <[l1 := c1]> (heap p); network := network p |},
         l2, {| heap := <[l2 := c2]> (<[l1 := c1]> (heap p)); network := network p |},
         c1, c2.
  simpl. repeat split; try done.
  - apply lookup_insert_eq.
  - rewrite lookup_insert_ne by done. apply lookup_insert_eq.
  - apply lookup_insert_eq.
Qed.

(** C9. [withRegion] asks the metadata server for the region. When the
    lookup fails, it panics with the error and returns no session at all,
    with a default region or otherwise; when it succeeds, the session
    returned has the region of the answer and is otherwise the one given. *)
Theorem withRegion_region_or_panic {M : Type} `{!EC2Metadata M}
  (sess : Session) (m : M) :
  ∃ region err m',
    metadataRegion sess m = ((region, err), m') ∧
    match err with
    | Some e =>
        withRegion sess m =
        (Panicked (logPanic "failed to call the metadata server's region API" e), m')
    | None =>
        ∃ sess',
          withRegion sess m = (Returned sess', m') ∧
          Region (sessionConfig sess') = Some region ∧
          STSRegionalEndpoint (sessionConfig sess') = STSRegionalEndpoint (sessionConfig sess) ∧
          buildHandlers sess' = buildHandlers sess
    end.
Proof.
  destruct (metadataRegion sess m) as [[region err] m'] eqn:Hm.
  exists region, err, m'. split; [reflexivity |].
  unfold withRegion, mbind, Go_bind, bind, PanicIfError. rewrite Hm.
  destruct err as [e |]; simpl.
  - reflexivity.
  - eexists. split; [reflexivity |]. by repeat split.
Qed.

Example withRegion_metadata_down :
  withRegion newSession {| answer := ("", Some metadataDown) |} =
  (Panicked (logPanic "failed to call the metadata server's region API" metadataDown),
   {| answer := ("", Some metadataDown) |}).
Proof. reflexivity. Qed.

Example withRegion_us_west_2 :
  withRegion newSession {| answer := ("us-west-2", None) |} =
  (Returned {| sessionConfig := {| Region := Some "us-west-2"; STSRegionalEndpoint := 2 |};
               buildHandlers := [] |},
   {| answer := ("us-west-2", None) |}).
Proof. reflexivity. Qed.

(** * Further properties of a pass *)

Lemma wrap_range (w z : Z) : 0 < w -> - 2 ^ (w - 1) <= wrap w z < 2 ^ (w - 1).
Proof.
  intros Hw. unfold wrap.
  assert (Hp : 2 ^ w = 2 * 2 ^ (w - 1)).
  { rewrite <- Z.pow_succ_r by lia. f_equal. lia. }
  assert (Hpos : 0 < 2 ^ (w - 1)) by (apply Z.pow_pos_nonneg; lia).
  pose proof (Z.mod_pos_bound (z + 2 ^ (w - 1)) (2 ^ w)) as Hm. lia.
Qed.

Lemma int32_is_int32 (z : Z) : is_int32 (int32 z).
Proof. apply (wrap_range 32 z). lia. Qed.

(** Every answer of the describe call falls under one of the four cases of
    [pass_describe_failed], [firstGroup] being none, [pass_noop] and
    [pass_update]. *)
Lemma firstGroup_None_cases (out : option DescribeAutoScalingGroupsOutput) :
  firstGroup out = None ->
  out = None ∨ out = Some {| AutoScalingGroups := [] |} ∨
  ∃ rest, out = Some {| AutoScalingGroups := None :: rest |}.
Proof.
  destruct out as [[[| [g |] rest]] |]; simpl; intros H; try discriminate; eauto.
Qed.

Lemma firstGroup_Some_cases (out : option DescribeAutoScalingGroupsOutput) (g : Group) :
  firstGroup out = Some g ->
  ∃ rest, out = Some {| AutoScalingGroups := Some g :: rest |}.
Proof.
  destruct out as [[[| [g' |] rest]] |]; simpl; intros H; try discriminate.
  injection H as ->. eauto.
Qed.

Lemma pass_panics {C : Type} `{!AutoScalingAPI C} (asg : AutoScalingGroup C) out c1 :
  DescribeAutoScalingGroups (describeInput (sng asg)) (Client asg) = ((out, None), c1) ->
  firstGroup out = None ->
  ∃ msg,
    Reconcile asg =
    (Panicked (runtimeError msg),
     {| sng := sng asg; Client := c1;
        calls := calls asg ++ [DescribeCall (describeInput (sng asg))] |}).
Proof.
  intros Hd Hg.
  destruct (firstGroup_None_cases out Hg) as [-> | [-> | [rest ->]]]; eexists.
  - exact (pass_nil_output asg c1 Hd).
  - exact (pass_no_results asg c1 Hd).
  - exact (pass_nil_group asg rest c1 Hd).
Qed.

(** X1. A describe call that returns no error and nothing to count (a nil
    output, no group, or a nil first group) makes the pass panic with a
    run-time error, after that one call and before anything is written. *)
Theorem Reconcile_nothing_to_count_panics {C : Type} `{!AutoScalingAPI C}
  (asg : AutoScalingGroup C) out c1 :
  DescribeAutoScalingGroups (describeInput (sng asg)) (Client asg) = ((out, None), c1) ->
  firstGroup out = None ->
  ∃ msg asg',
    Reconcile asg = (Panicked (runtimeError msg), asg') ∧
    sng asg' = sng asg ∧
    calls asg' = calls asg ++ [DescribeCall (describeInput (sng asg))].
Proof.
  intros Hd Hg. destruct (pass_panics asg out c1 Hd Hg) as [msg Hr].
  exists msg. eexists. split; [exact Hr |]. by split.
Qed.

Lemma Reconcile_nothing_to_count_panics_witness :
  ∃ msg asg',
    Reconcile (receiver (cloud "asg-1" 3) "asg-2" None (Some 3))
      = (Panicked (runtimeError msg), asg') ∧
    sng asg' = {| Spec := {| ID := "asg-2"; SpecReplicas := None |};
                  Status := {| StatusReplicas := Some 3 |} |} ∧
    calls asg' = [] ++ [DescribeCall {| AutoScalingGroupNames := [Some "asg-2"];
                                        MaxRecords := Some 1 |}].
Proof.
  apply (Reconcile_nothing_to_count_panics
           (receiver (cloud "asg-1" 3) "asg-2" None (Some 3))
           (Some {| AutoScalingGroups := [] |}) (cloud "asg-1" 3)).
  - vm_compute. reflexivity.
  - reflexivity.
Defined.

(** The receiver after a pass that stopped at the describe call, and after
    one that went on. *)
Lemma pass_cases {C : Type} `{!AutoScalingAPI C} (asg : AutoScalingGroup C) :
  ∃ out err c1,
    DescribeAutoScalingGroups (describeInput (sng asg)) (Client asg) = ((out, err), c1) ∧
    let stopped := {| sng := sng asg; Client := c1;
                      calls := calls asg ++ [DescribeCall (describeInput (sng asg))] |} in
    ((∃ r, Reconcile asg = (r, stopped) ∧ (err = None -> firstGroup out = None)) ∨
     (∃ g, err = None ∧ firstGroup out = Some g ∧
        (SpecReplicas (Spec (sng asg)) = None ∨
         SpecReplicas (Spec (sng asg)) = Some (int32 (len (Instances g)))) ∧
        Reconcile asg =
        (Returned None,
         {| sng := observe (sng asg) g; Client := c1;
            calls := calls asg ++ [DescribeCall (describeInput (sng asg))] |})) ∨
     (∃ g desired uout uerr c2,
        err = None ∧ firstGroup out = Some g ∧
        SpecReplicas (Spec (sng asg)) = Some desired ∧
        int32 (len (Instances g)) ≠ desired ∧
        UpdateAutoScalingGroup (updateInput (sng asg) desired) c1 = ((uout, uerr), c2) ∧
        Reconcile asg =
        (Returned uerr,
         {| sng := observe (sng asg) g; Client := c2;
            calls := calls asg ++ [DescribeCall (describeInput (sng asg));
                                   UpdateCall (updateInput (sng asg) desired)] |}))).
Proof.
  destruct (DescribeAutoScalingGroups (describeInput (sng asg)) (Client asg))
    as [[out err] c1] eqn:Hd.
  exists out, err, c1. split; [reflexivity |]. simpl.
  destruct err as [e |].
  { left. eexists. split; [exact (pass_describe_failed asg out e c1 Hd) | done]. }
  destruct (firstGroup out) as [g |] eqn:Hg.
  - destruct (firstGroup_Some_cases out g Hg) as [rest ->].
    destruct (SpecReplicas (Spec (sng asg))) as [desired |] eqn:Hs.
    + destruct (decide (int32 (len (Instances g)) = desired)) as [Heq | Hne].
      * right. left. exists g. repeat split; [right; by rewrite Heq |].
        apply (pass_noop asg g rest c1 Hd). right. by rewrite Heq.
      * destruct (UpdateAutoScalingGroup (updateInput (sng asg) desired) c1)
          as [[uout uerr] c2] eqn:Hu.
        right. right. exists g, desired, uout, uerr, c2. repeat split; try done.
        exact (pass_update asg g rest c1 desired uout uerr c2 Hd Hs Hne Hu).
    + right. left. exists g. repeat split; [by left |].
      apply (pass_noop asg g rest c1 Hd). by left.
  - left. destruct (pass_panics asg out c1 Hd Hg) as [msg Hr].
    eexists. split; [exact Hr | done].
Qed.

(** X2. Whatever the client answers, a pass does not write the specification
    of the node group, and it either leaves [Status.Replicas] as it was or
    sets it to a number in the range of [int32]. *)
Theorem Reconcile_writes_only_status {C : Type} `{!AutoScalingAPI C}
  (asg : AutoScalingGroup C) :
  Spec (sng (snd (Reconcile asg))) = Spec (sng asg) ∧
  (Status (sng (snd (Reconcile asg))) = Status (sng asg) ∨
   ∃ z, StatusReplicas (Status (sng (snd (Reconcile asg)))) = Some z ∧ is_int32 z).
Proof.
  destruct (pass_cases asg) as (out & err & c1 & _ & Hcases). simpl in Hcases.
  destruct Hcases as [(r & -> & _) | [(g & _ & _ & _ & ->) | (g & d & uo & ue & c2 & _ & _ & _ & _ & _ & ->)]];
    simpl; (split; [reflexivity |]).
  - by left.
  - right. eexists. split; [reflexivity | apply int32_is_int32].
  - right. eexists. split; [reflexivity | apply int32_is_int32].
Qed.

(** X3. The calls of a pass: first one describe call, for the identifier of
    the node group alone and with [MaxRecords] 1; then nothing, or one update
    call for that same identifier and the desired count of the specification.
    No call about another group is ever sent, and no update goes out before
    the describe call. *)
Theorem Reconcile_calls_shape {C : Type} `{!AutoScalingAPI C}
  (asg : AutoScalingGroup C) :
  ∃ us,
    calls (snd (Reconcile asg)) =
      calls asg ++
      DescribeCall {| AutoScalingGroupNames := [Some (ID (Spec (sng asg)))];
                      MaxRecords := Some 1 |} :: us ∧
    (us = [] ∨
     ∃ desired,
       SpecReplicas (Spec (sng asg)) = Some desired ∧
       us = [UpdateCall {| AutoScalingGroupName := Some (ID (Spec (sng asg)));
                           DesiredCapacity := Some (int64 desired) |}]).
Proof.
  destruct (pass_cases asg) as (out & err & c1 & _ & Hcases). simpl in Hcases.
  destruct Hcases as [(r & -> & _) | [(g & _ & _ & _ & ->) | (g & d & uo & ue & c2 & _ & _ & Hs & _ & _ & ->)]];
    simpl.
  - exists []. split; [reflexivity | by left].
  - exists []. split; [reflexivity | by left].
  - eexists. split; [reflexivity |]. right. exists d. by split.
Qed.

(** X4. The status stored before a pass plays no part in it: with any other
    status in its place, the pass returns the same result, sends the same
    calls and leaves the client in the same state. The choice between doing
    nothing and updating rests on the count just described. *)
Theorem Reconcile_ignores_stored_status {C : Type} `{!AutoScalingAPI C}
  (asg : AutoScalingGroup C) (st : ScalableNodeGroupStatus) :
  fst (Reconcile (withStatus st asg)) = fst (Reconcile asg) ∧
  calls (snd (Reconcile (withStatus st asg))) = calls (snd (Reconcile asg)) ∧
  Client (snd (Reconcile (withStatus st asg))) = Client (snd (Reconcile asg)).
Proof.
  destruct (pass_cases asg) as (out & err & c1 & Hd & Hcases). simpl in Hcases.
  assert (Hd' : DescribeAutoScalingGroups (describeInput (sng (withStatus st asg)))
                  (Client (withStatus st asg)) = ((out, err), c1)) by exact Hd.
  destruct Hcases as [(r & Hr & Hnone) | [(g & -> & Hg & Hs & Hr) | (g & d & uo & ue & c2 & -> & Hg & Hs & Hne & Hu & Hr)]];
    rewrite Hr; simpl.
  - destruct err as [e |].
    + rewrite (pass_describe_failed asg out e c1 Hd) in Hr.
      rewrite (pass_describe_failed (withStatus st asg) out e c1 Hd').
      injection Hr as <-. done.
    + destruct (pass_panics asg out c1 Hd (Hnone eq_refl)) as [msg Hp].
      destruct (pass_panics (withStatus st asg) out c1 Hd' (Hnone eq_refl)) as [msg' Hp'].
      rewrite Hp in Hr. rewrite Hp'. injection Hr as <-. simpl.
      destruct (firstGroup_None_cases out (Hnone eq_refl)) as [-> | [-> | [rest ->]]].
      * rewrite (pass_nil_output (withStatus st asg) c1 Hd') in Hp'.
        rewrite (pass_nil_output asg c1 Hd) in Hp. by simplify_eq.
      * rewrite (pass_no_results (withStatus st asg) c1 Hd') in Hp'.
        rewrite (pass_no_results asg c1 Hd) in Hp. by simplify_eq.
      * rewrite (pass_nil_group (withStatus st asg) rest c1 Hd') in Hp'.
        rewrite (pass_nil_group asg rest c1 Hd) in Hp. by simplify_eq.
  - destruct (firstGroup_Some_cases out g Hg) as [rest ->].
    by rewrite (pass_noop (withStatus st asg) g rest c1 Hd' Hs).
  - destruct (firstGroup_Some_cases out g Hg) as [rest ->].
    by rewrite (pass_update (withStatus st asg) g rest c1 d uo ue c2 Hd' Hs Hne Hu).
Qed.

(** ** Two passes in a row *)

(** X5. A pass that sent its update call without error, followed by a pass
    in which the cloud reports the desired count: the second pass sends the
    describe call only and returns success, the two passes together have sent
    one update call, and the status is the desired count. *)
Theorem Reconcile_settles_on_next_pass {C : Type} `{!AutoScalingAPI C}
  (asg : AutoScalingGroup C) g rest c1 desired uout c2 g2 rest2 c3 :
  DescribeAutoScalingGroups (describeInput (sng asg)) (Client asg) =
    ((Some {| AutoScalingGroups := Some g :: rest |}, None), c1) ->
  SpecReplicas (Spec (sng asg)) = Some desired ->
  int32 (len (Instances g)) ≠ desired ->
  UpdateAutoScalingGroup (updateInput (sng asg) desired) c1 = ((uout, None), c2) ->
  DescribeAutoScalingGroups (describeInput (sng asg)) c2 =
    ((Some {| AutoScalingGroups := Some g2 :: rest2 |}, None), c3) ->
  int32 (len (Instances g2)) = desired ->
  ∃ asg',
    passes 2 asg = ([Returned None; Returned None], asg') ∧
    calls asg' = calls asg ++ [DescribeCall (describeInput (sng asg));
                               UpdateCall (updateInput (sng asg) desired);
                               DescribeCall (describeInput (sng asg))] ∧
    StatusReplicas (Status (sng asg')) = Some desired ∧
    Client asg' = c3.
Proof.
  intros Hd Hs Hne Hu Hd2 Heq.
  pose proof (pass_update asg g rest c1 desired uout None c2 Hd Hs Hne Hu) as H1.
  set (asg1 := {| sng := observe (sng asg) g; Client := c2;
                  calls := calls asg ++ [DescribeCall (describeInput (sng asg));
                                         UpdateCall (updateInput (sng asg) desired)] |}) in H1.
  assert (Hd2' : DescribeAutoScalingGroups (describeInput (sng asg1)) (Client asg1) =
                 ((Some {| AutoScalingGroups := Some g2 :: rest2 |}, None), c3)) by exact Hd2.
  assert (Hs' : SpecReplicas (Spec (sng asg1)) = None ∨
                SpecReplicas (Spec (sng asg1)) = Some (int32 (len (Instances g2)))).
  { right. simpl. by rewrite Heq. }
  pose proof (pass_noop asg1 g2 rest2 c3 Hd2' Hs') as H2.
  eexists. simpl. rewrite H1, H2. split; [reflexivity |].
  simpl. rewrite <- app_assoc. simpl. rewrite Heq. by repeat split.
Qed.

Lemma Reconcile_settles_on_next_pass_witness :
  ∃ asg',
    passes 2 (elasticReceiver "asg-1" 3 (Some 5)) = ([Returned None; Returned None], asg') ∧
    calls asg' = [] ++ [DescribeCall {| AutoScalingGroupNames := [Some "asg-1"];
                                        MaxRecords := Some 1 |};
                        UpdateCall {| AutoScalingGroupName := Some "asg-1";
                                      DesiredCapacity := Some (int64 5) |};
                        DescribeCall {| AutoScalingGroupNames := [Some "asg-1"];
                                        MaxRecords := Some 1 |}] ∧
    StatusReplicas (Status (sng asg')) = Some 5 ∧
    Client asg' = {| sizes := {[ "asg-1" := 5%nat ]} |}.
Proof.
  apply (Reconcile_settles_on_next_pass (elasticReceiver "asg-1" 3 (Some 5))
           (group "asg-1" 3) [] {| sizes := {[ "asg-1" := 3%nat ]} |} 5
           (Some emptyUpdateOutput) {| sizes := {[ "asg-1" := 5%nat ]} |}
           (group "asg-1" 5) [] {| sizes := {[ "asg-1" := 5%nat ]} |}).
  - vm_compute. reflexivity.
  - reflexivity.
  - vm_compute. discriminate.
  - vm_compute. reflexivity.
  - vm_compute. reflexivity.
  - vm_compute. reflexivity.
Defined.

(** X6. A pass keeps no memory of the update call it sent. When the next
    pass still finds a count other than the desired one, it sends the same
    update call again: two such passes have sent two equal update calls. *)
Theorem Reconcile_resends_update {C : Type} `{!AutoScalingAPI C}
  (asg : AutoScalingGroup C) g rest c1 desired uout uerr c2 g2 rest2 c3 uout2 uerr2 c4 :
  DescribeAutoScalingGroups (describeInput (sng asg)) (Client asg) =
    ((Some {| AutoScalingGroups := Some g :: rest |}, None), c1) ->
  SpecReplicas (Spec (sng asg)) = Some desired ->
  int32 (len (Instances g)) ≠ desired ->
  UpdateAutoScalingGroup (updateInput (sng asg) desired) c1 = ((uout, uerr), c2) ->
  DescribeAutoScalingGroups (describeInput (sng asg)) c2 =
    ((Some {| AutoScalingGroups := Some g2 :: rest2 |}, None), c3) ->
  int32 (len (Instances g2)) ≠ desired ->
  UpdateAutoScalingGroup (updateInput (sng asg) desired) c3 = ((uout2, uerr2), c4) ->
  ∃ asg',
    passes 2 asg = ([Returned uerr; Returned uerr2], asg') ∧
    updates (calls asg') =
      updates (calls asg) ++ [updateInput (sng asg) desired; updateInput (sng asg) desired] ∧
    StatusReplicas (Status (sng asg')) = Some (int32 (len (Instances g2))).
Proof.
  intros Hd Hs Hne Hu Hd2 Hne2 Hu2.
  pose proof (pass_update asg g rest c1 desired uout uerr c2 Hd Hs Hne Hu) as H1.
  set (asg1 := {| sng := observe (sng asg) g; Client := c2;
                  calls := calls asg ++ [DescribeCall (describeInput (sng asg));
                                         UpdateCall (updateInput (sng asg) desired)] |}) in H1.
  assert (Hd2' : DescribeAutoScalingGroups (describeInput (sng asg1)) (Client asg1) =
                 ((Some {| AutoScalingGroups := Some g2 :: rest2 |}, None), c3)) by exact Hd2.
  assert (Hs' : SpecReplicas (Spec (sng asg1)) = Some desired) by exact Hs.
  assert (Hu2' : UpdateAutoScalingGroup (updateInput (sng asg1) desired) c3 =
                 ((uout2, uerr2), c4)) by exact Hu2.
  pose proof (pass_update asg1 g2 rest2 c3 desired uout2 uerr2 c4 Hd2' Hs' Hne2 Hu2') as H2.
  eexists. simpl. rewrite H1, H2. split; [reflexivity |].
  simpl. split; [| reflexivity].
  rewrite !updates_app. simpl. by rewrite <- app_assoc.
Qed.

Lemma Reconcile_resends_update_witness :
  ∃ asg',
    passes 2 (receiver (cloud "asg-1" 3) "asg-1" (Some 5) None)
      = ([Returned None; Returned None], asg') ∧
    updates (calls asg') =
      updates [] ++ [{| AutoScalingGroupName := Some "asg-1";
                        DesiredCapacity := Some (int64 5) |};
                     {| AutoScalingGroupName := Some "asg-1";
                        DesiredCapacity := Some (int64 5) |}] ∧
    StatusReplicas (Status (sng asg')) = Some (int32 (len (instances 3))).
Proof.
  apply (Reconcile_resends_update (receiver (cloud "asg-1" 3) "asg-1" (Some 5) None)
           (group "asg-1" 3) [] (cloud "asg-1" 3) 5
           (Some emptyUpdateOutput) None (requested "asg-1" 3 5)
           {| GroupName := Some "asg-1"; GroupDesiredCapacity := Some 5;
              Instances := instances 3 |} [] (requested "asg-1" 3 5)
           (Some emptyUpdateOutput) None (requested "asg-1" 3 5)).
  - vm_compute. reflexivity.
  - reflexivity.
  - vm_compute. discriminate.
  - vm_compute. reflexivity.
  - vm_compute. reflexivity.
  - vm_compute. discriminate.
  - vm_compute. reflexivity.
Defined.

(** * The factory at start-up *)

Lemma withRegion_ok {M : Type} `{!EC2Metadata M} (sess : Session) (m m' : M) region :
  metadataRegion sess m = ((region, None), m') ->
  withRegion sess m =
  (Returned {| sessionConfig := {| Region := Some region;
                                   STSRegionalEndpoint := STSRegionalEndpoint (sessionConfig sess) |};
               buildHandlers := buildHandlers sess |}, m').
Proof.
  intros Hm. unfold withRegion, mbind, Go_bind, bind, PanicIfError. by rewrite Hm.
Qed.

Lemma withRegion_failed {M : Type} `{!EC2Metadata M} (sess : Session) (m m' : M) region e :
  metadataRegion sess m = ((region, Some e), m') ->
  withRegion sess m =
  (Panicked (logPanic "failed to call the metadata server's region API" e), m').
Proof.
  intros Hm. unfold withRegion, mbind, Go_bind, bind, PanicIfError. by rewrite Hm.
Qed.

Lemma bind_returned {St A B : Type} (m : Go St A) (k : A -> Go St B) s a s' :
  m s = (Returned a, s') -> (m ≫= k) s = k a s'.
Proof. intros H. unfold mbind, Go_bind, bind. by rewrite H. Qed.

Lemma bind_panicked {St A B : Type} (m : Go St A) (k : A -> Go St B) s p s' :
  m s = (Panicked p, s') -> (m ≫= k) s = (Panicked p, s').
Proof. intros H. unfold mbind, Go_bind, bind. by rewrite H. Qed.

Lemma bind_alloc {M A : Type} (o : object) (k : loc -> Go (Startup M) A) (s : Startup M) :
  ∃ l s',
    (alloc o ≫= k) s = k l s' ∧
    objects s !! l = None ∧ objects s' !! l = Some o ∧
    objects s ⊆ objects s' ∧ metadata s' = metadata s.
Proof.
  exists (fresh (dom (objects s))),
         {| objects := <[fresh (dom (objects s)) := o]> (objects s);
            metadata := metadata s |}.
  assert (Hf : objects s !! fresh (dom (objects s)) = None).
  { apply not_elem_of_dom. apply is_fresh. }
  split; [reflexivity |]. split; [exact Hf |]. simpl.
  split; [apply lookup_insert_eq |]. split; [by apply insert_subseteq | reflexivity].
Qed.

Ltac carry Hbase Hsub :=
  repeat match goal with
         | H : objects ?s !! _ = Some _ |- _ =>
             lazymatch type of Hsub with
             | objects s ⊆ _ => apply (fun H' => lookup_weaken _ _ _ _ H' Hsub) in H
             end
         end;
  apply (fun H' => transitivity H' Hsub) in Hbase.

Ltac step_alloc l s' Hnew Hl Hsub :=
  match goal with
  | |- context [ (alloc ?o ≫= ?k) ?s ] =>
      let E := fresh "E" in
      let Hm := fresh "Hm" in
      destruct (bind_alloc o k s) as (l & s' & E & Hnew & Hl & Hsub & Hm);
      rewrite E; clear E Hm; cbn beta
  end.

Lemma NewFactory_built {M : Type} `{!EC2Metadata M} `{!Wiring M}
  (options : Options) (s : Startup M) sess0 region m1 :
  mustNewSession = Returned sess0 ->
  metadataRegion sess0 (metadata s) = ((region, None), m1) ->
  onlyAdds NewSubnetProvider -> onlyAdds NewInstanceTypeProvider ->
  let sess := withUserAgent Version
                {| sessionConfig :=
                     {| Region := Some region;
                        STSRegionalEndpoint := STSRegionalEndpoint (sessionConfig sess0) |};
                   buildHandlers := buildHandlers sess0 |} in
  ∃ f s' api c1 c2 sgp ssm ltp nf ip,
    NewFactory options s = (Returned f, s') ∧
    objects s ⊆ objects s' ∧
    objects s !! api = None ∧
    objects s' !! api = Some (EC2Client sess) ∧
    objects s' !! ssm = Some (SSMClient sess) ∧
    c1 ≠ c2 ∧
    objects s !! c1 = None ∧ objects s !! c2 = None ∧
    objects s' !! c1 = Some (CacheObject CacheTTL CacheCleanupInterval) ∧
    objects s' !! c2 = Some (CacheObject CacheTTL CacheCleanupInterval) ∧
    objects s' !! sgp = Some (SecurityGroupProviderObject (Some api) (Some c2)) ∧
    objects s' !! ltp =
      Some (LaunchTemplateProviderObject (Some api) (Some c1) (Some sgp) (Some ssm)
              (ClientSet options)) ∧
    objects s' !! nf = Some (NodeFactoryObject (Some api)) ∧
    objects s' !! ip = Some (InstanceProviderObject (Some api)) ∧
    nodeFactory f = Some nf ∧
    launchTemplateProvider f = Some ltp ∧
    instanceProvider f = Some ip ∧
    (∃ sa sa', NewSubnetProvider (Some api) sa = (Returned (subnetProvider f), sa')) ∧
    (∃ sb sb', NewInstanceTypeProvider (Some api) sb = (Returned (instanceTypeProvider f), sb')).
Proof.
  intros Hs Hm Hsp Hitp sess.
  unfold NewFactory.
  rewrite (bind_returned _ _ s sess0 s) by (unfold outcome; by rewrite Hs).
  rewrite (bind_returned _ _ s _ {| objects := objects s; metadata := m1 |})
    by (unfold onMetadata; by rewrite (withRegion_ok sess0 (metadata s) m1 region Hm)).
  rewrite (bind_returned _ _ _ sess _) by reflexivity.
  set (s0 := {| objects := objects s; metadata := m1 |}).
  assert (Hbase : objects s ⊆ objects s0) by reflexivity.
  step_alloc api s1 Hnew1 Hapi H1. carry Hbase H1.
  step_alloc c1 s2 Hnew2 Hc1 H2.
  assert (Hf1 : objects s !! c1 = None) by exact (lookup_weaken_None _ _ _ Hnew2 Hbase).
  carry Hbase H2.
  step_alloc c2 s3 Hnew3 Hc2 H3.
  assert (Hf2 : objects s !! c2 = None) by exact (lookup_weaken_None _ _ _ Hnew3 Hbase).
  assert (Hne : c1 ≠ c2) by congruence. carry Hbase H3.
  step_alloc sgp s4 Hnew4 Hsgp H4. carry Hbase H4.
  step_alloc ssm s5 Hnew5 Hssm H5. carry Hbase H5.
  step_alloc ltp s6 Hnew6 Hltp H6. carry Hbase H6.
  step_alloc nfl s7 Hnew7 Hnf H7. carry Hbase H7.
  destruct (Hsp (Some api) s7) as (sp & s8 & Esp & H8).
  rewrite (bind_returned _ _ s7 sp s8 Esp). carry Hbase H8.
  destruct (Hitp (Some api) s8) as (itp & s9 & Eitp & H9).
  rewrite (bind_returned _ _ s8 itp s9 Eitp). carry Hbase H9.
  step_alloc ip s10 Hnew10 Hip H10. carry Hbase H10.
  eexists _, s10, api, c1, c2, sgp, ssm, ltp, nfl, ip.
  split; [reflexivity |]. simpl. repeat split; eauto.
Qed.

Lemma NewFactory_stops {M : Type} `{!EC2Metadata M} `{!Wiring M}
  (options : Options) (s : Startup M) sess0 region e m1 :
  mustNewSession = Returned sess0 ->
  metadataRegion sess0 (metadata s) = ((region, Some e), m1) ->
  NewFactory options s =
  (Panicked (logPanic "failed to call the metadata server's region API" e),
   {| objects := objects s; metadata := m1 |}).
Proof.
  intros Hs Hm. unfold NewFactory.
  rewrite (bind_returned _ _ s sess0 s) by (unfold outcome; by rewrite Hs).
  apply bind_panicked. unfold onMetadata.
  by rewrite (withRegion_failed sess0 (metadata s) m1 region e Hm).
Qed.

(** X7. When the metadata server does not give the region, [NewFactory]
    panics with the error of the lookup and has built nothing: no client, no
    cache and no provider has been made. (The panic is that of
    [log.PanicIfError], as modelled above.) *)
Theorem NewFactory_without_region_builds_nothing {M : Type} `{!EC2Metadata M} `{!Wiring M}
  (options : Options) (s : Startup M) sess0 region (e : error) m1 :
  mustNewSession = Returned sess0 ->
  metadataRegion sess0 (metadata s) = ((region, Some e), m1) ->
  ∃ s',
    NewFactory options s =
      (Panicked (logPanic "failed to call the metadata server's region API" e), s') ∧
    objects s' = objects s.
Proof.
  intros Hs Hm. eexists. split; [exact (NewFactory_stops options s sess0 region e m1 Hs Hm) |].
  reflexivity.
Qed.

Lemma NewFactory_without_region_builds_nothing_witness :
  ∃ s',
    @NewFactory fakeMetadata _ (fakeWiring (Returned newSession)) {| ClientSet := None |}
      (emptyStartup ("", Some metadataDown)) =
      (Panicked (logPanic "failed to call the metadata server's region API" metadataDown), s') ∧
    objects s' = ∅.
Proof.
  apply (@NewFactory_without_region_builds_nothing fakeMetadata _
           (fakeWiring (Returned newSession)) {| ClientSet := None |}
           (emptyStartup ("", Some metadataDown)) newSession "" metadataDown
           {| answer := ("", Some metadataDown) |}); reflexivity.
Defined.

Lemma fakeWiring_onlyAdds (sess : result Session) (type : string) :
  onlyAdds (fun api => l ← alloc (M := fakeMetadata) (ForeignObject type api); ret (Some l)).
Proof.
  intros api s.
  destruct (bind_alloc (ForeignObject type api) (fun l => ret (Some l)) s)
    as (l & s' & E & _ & _ & Hsub & _).
  exists (Some l), s'. split; [exact E | exact Hsub].
Qed.

(** X8. When the session is there, the region lookup succeeds and the two
    constructors return, [NewFactory] makes one EC2 client, new, from the
    session with the region of the lookup and with the karpenter user agent
    as its last build handler (the handlers it had are kept, in order). The
    node factory, the instance provider, the launch template provider and
    the security group provider inside it all hold that one client, the two
    constructors are given it too, and the SSM client is made from the same
    session. Nothing that was there before is changed. *)
Theorem NewFactory_shares_one_client {M : Type} `{!EC2Metadata M} `{!Wiring M}
  (options : Options) (s : Startup M) sess0 region m1 :
  mustNewSession = Returned sess0 ->
  metadataRegion sess0 (metadata s) = ((region, None), m1) ->
  onlyAdds NewSubnetProvider -> onlyAdds NewInstanceTypeProvider ->
  ∃ f s' sess api ssm sgp ltp nfl ip ltpCache sgpCache,
    NewFactory options s = (Returned f, s') ∧
    objects s ⊆ objects s' ∧
    Region (sessionConfig sess) = Some region ∧
    buildHandlers sess = buildHandlers sess0 ++ ["karpenter.sh-" +:+ Version] ∧
    objects s !! api = None ∧
    objects s' !! api = Some (EC2Client sess) ∧
    objects s' !! ssm = Some (SSMClient sess) ∧
    nodeFactory f = Some nfl ∧
    objects s' !! nfl = Some (NodeFactoryObject (Some api)) ∧
    instanceProvider f = Some ip ∧
    objects s' !! ip = Some (InstanceProviderObject (Some api)) ∧
    launchTemplateProvider f = Some ltp ∧
    objects s' !! ltp =
      Some (LaunchTemplateProviderObject (Some api) (Some ltpCache) (Some sgp) (Some ssm)
              (ClientSet options)) ∧
    objects s' !! sgp = Some (SecurityGroupProviderObject (Some api) (Some sgpCache)) ∧
    (∃ sa sa', NewSubnetProvider (Some api) sa = (Returned (subnetProvider f), sa')) ∧
    (∃ sb sb', NewInstanceTypeProvider (Some api) sb = (Returned (instanceTypeProvider f), sb')).
Proof.
  intros Hs Hm Hsp Hitp.
  destruct (NewFactory_built options s sess0 region m1 Hs Hm Hsp Hitp)
    as (f & s' & api & c1 & c2 & sgp & ssm & ltp & nfl & ip & Hr & Hsub & Hnew & Hapi & Hssm
        & _ & _ & _ & _ & _ & Hsgp & Hltp & Hnf & Hip & Hfn & Hfl & Hfi & Hsn & Hit).
  exists f, s'. eexists. exists api, ssm, sgp, ltp, nfl, ip, c1, c2.
  split; [exact Hr |]. split; [exact Hsub |].
  split; [| split; [| repeat split; eassumption]].
  - reflexivity.
  - simpl. rewrite append_empty_r. reflexivity.
Qed.

Lemma NewFactory_shares_one_client_witness :
  ∃ f s' sess api ssm sgp ltp nfl ip ltpCache sgpCache,
    @NewFactory fakeMetadata _ (fakeWiring (Returned newSession)) {| ClientSet := Some 77%positive |}
      (emptyStartup ("us-west-2", None)) = (Returned f, s') ∧
    (∅ : gmap loc object) ⊆ objects s' ∧
    Region (sessionConfig sess) = Some "us-west-2" ∧
    buildHandlers sess = [] ++ ["karpenter.sh-" +:+ "v0.2.1"] ∧
    (∅ : gmap loc object) !! api = None ∧
    objects s' !! api = Some (EC2Client sess) ∧
    objects s' !! ssm = Some (SSMClient sess) ∧
    nodeFactory f = Some nfl ∧
    objects s' !! nfl = Some (NodeFactoryObject (Some api)) ∧
    instanceProvider f = Some ip ∧
    objects s' !! ip = Some (InstanceProviderObject (Some api)) ∧
    launchTemplateProvider f = Some ltp ∧
    objects s' !! ltp =
      Some (LaunchTemplateProviderObject (Some api) (Some ltpCache) (Some sgp) (Some ssm)
              (Some 77%positive)) ∧
    objects s' !! sgp = Some (SecurityGroupProviderObject (Some api) (Some sgpCache)) ∧
    (∃ sa sa', @NewSubnetProvider fakeMetadata (fakeWiring (Returned newSession)) (Some api) sa
               = (Returned (subnetProvider f), sa')) ∧
    (∃ sb sb', @NewInstanceTypeProvider fakeMetadata (fakeWiring (Returned newSession)) (Some api) sb
               = (Returned (instanceTypeProvider f), sb')).
Proof.
  apply (@NewFactory_shares_one_client fakeMetadata _ (fakeWiring (Returned newSession))
           {| ClientSet := Some 77%positive |} (emptyStartup ("us-west-2", None))
           newSession "us-west-2" {| answer := ("us-west-2", None) |}).
  - reflexivity.
  - reflexivity.
  - exact (fakeWiring_onlyAdds (Returned newSession) "SubnetProvider").
  - exact (fakeWiring_onlyAdds (Returned newSession) "InstanceTypeProvider").
Defined.

(** X9. Under the same conditions, the launch template provider and the
    security group provider inside it get a cache each: two different
    objects, both new, both made with a time to live of five minutes and a
    clean-up interval of ten. *)
Theorem NewFactory_separate_caches {M : Type} `{!EC2Metadata M} `{!Wiring M}
  (options : Options) (s : Startup M) sess0 region m1 :
  mustNewSession = Returned sess0 ->
  metadataRegion sess0 (metadata s) = ((region, None), m1) ->
  onlyAdds NewSubnetProvider -> onlyAdds NewInstanceTypeProvider ->
  ∃ f s' ltp sgp ltpCache sgpCache api ssm,
    NewFactory options s = (Returned f, s') ∧
    launchTemplateProvider f = Some ltp ∧
    objects s' !! ltp =
      Some (LaunchTemplateProviderObject api (Some ltpCache) (Some sgp) ssm
              (ClientSet options)) ∧
    objects s' !! sgp = Some (SecurityGroupProviderObject api (Some sgpCache)) ∧
    ltpCache ≠ sgpCache ∧
    objects s !! ltpCache = None ∧ objects s !! sgpCache = None ∧
    objects s' !! ltpCache = Some (CacheObject (5 * 60 * 1000000000) (10 * 60 * 1000000000)) ∧
    objects s' !! sgpCache = Some (CacheObject (5 * 60 * 1000000000) (10 * 60 * 1000000000)).
Proof.
  intros Hs Hm Hsp Hitp.
  destruct (NewFactory_built options s sess0 region m1 Hs Hm Hsp Hitp)
    as (f & s' & api & c1 & c2 & sgp & ssm & ltp & nfl & ip & Hr & _ & _ & _ & _
        & Hne & Hf1 & Hf2 & Hc1 & Hc2 & Hsgp & Hltp & _ & _ & _ & Hfl & _).
  exists f, s', ltp, sgp, c1, c2, (Some api), (Some ssm).
  repeat split; assumption.
Qed.

Lemma NewFactory_separate_caches_witness :
  ∃ f s' ltp sgp ltpCache sgpCache api ssm,
    @NewFactory fakeMetadata _ (fakeWiring (Returned newSession)) {| ClientSet := None |}
      (emptyStartup ("us-west-2", None)) = (Returned f, s') ∧
    launchTemplateProvider f = Some ltp ∧
    objects s' !! ltp =
      Some (LaunchTemplateProviderObject api (Some ltpCache) (Some sgp) ssm None) ∧
    objects s' !! sgp = Some (SecurityGroupProviderObject api (Some sgpCache)) ∧
    ltpCache ≠ sgpCache ∧
    (∅ : gmap loc object) !! ltpCache = None ∧ (∅ : gmap loc object) !! sgpCache = None ∧
    objects s' !! ltpCache = Some (CacheObject (5 * 60 * 1000000000) (10 * 60 * 1000000000)) ∧
    objects s' !! sgpCache = Some (CacheObject (5 * 60 * 1000000000) (10 * 60 * 1000000000)).
Proof.
  apply (@NewFactory_separate_caches fakeMetadata _ (fakeWiring (Returned newSession))
           {| ClientSet := None |} (emptyStartup ("us-west-2", None))
           newSession "us-west-2" {| answer := ("us-west-2", None) |}).
  - reflexivity.
  - reflexivity.
  - exact (fakeWiring_onlyAdds (Returned newSession) "SubnetProvider").
  - exact (fakeWiring_onlyAdds (Returned newSession) "InstanceTypeProvider").
Defined.

(** ** Tag keys *)

Lemma append_cancel_l (p a b : string) : p +:+ a = p +:+ b -> a = b.
Proof.
  induction p as [| c p IH]; intros H; [exact H |].
  change (String c (p +:+ a) = String c (p +:+ b)) in H.
  injection H as H. by apply IH.
Qed.

Lemma Sprintf_cluster_tag (name : string) :
  Sprintf ClusterTagKeyFormat [name] = "kubernetes.io/cluster/" +:+ name.
Proof. unfold ClusterTagKeyFormat. simpl. rewrite append_empty_r. reflexivity. Qed.

Lemma Sprintf_karpenter_tag (name : string) :
  Sprintf KarpenterTagKeyFormat [name] = "karpenter.sh/cluster/" +:+ name.
Proof. unfold KarpenterTagKeyFormat. simpl. rewrite append_empty_r. reflexivity. Qed.

(** X10. The tag keys made from the two formats: the key of a cluster is the
    prefix followed by the name of the cluster, so two clusters have the same
    key only when they have the same name, and a key for Kubernetes-owned
    resources is never a key for Karpenter-owned ones, whatever the names. *)
Theorem tag_keys_tell_clusters_apart (a b : string) :
  Sprintf ClusterTagKeyFormat [a] = "kubernetes.io/cluster/" +:+ a ∧
  Sprintf KarpenterTagKeyFormat [a] = "karpenter.sh/cluster/" +:+ a ∧
  (Sprintf ClusterTagKeyFormat [a] = Sprintf ClusterTagKeyFormat [b] ↔ a = b) ∧
  (Sprintf KarpenterTagKeyFormat [a] = Sprintf KarpenterTagKeyFormat [b] ↔ a = b) ∧
  Sprintf ClusterTagKeyFormat [a] ≠ Sprintf KarpenterTagKeyFormat [b].
Proof.
  rewrite !Sprintf_cluster_tag, !Sprintf_karpenter_tag.
  split; [reflexivity |]. split; [reflexivity |].
  split; [| split].
  - split; [apply append_cancel_l | by intros ->].
  - split; [apply append_cancel_l | by intros ->].
  - intros H.
    change (String "k" (String "u" ("bernetes.io/cluster/" +:+ a)) =
            String "k" (String "a" ("rpenter.sh/cluster/" +:+ b))) in H.
    discriminate H.
Qed.
